(** * Raksha API: the paginated-query and document-normalisation layer

    A shallow embedding of [main.py] (handlers, filter building, pagination,
    identifier normalisation) and of the payload models of [schemas.py],
    over an explicit model of the document store the handlers talk to. *)

From Stdlib Require Import ZArith NArith List String Ascii Bool Lia.
From stdpp Require Import gmap strings list fin_maps.

Local Open Scope string_scope.
Local Open Scope list_scope.

(** ** Documents

    A stored document is a Python [dict] from field names to BSON values.
    Floats are carried by their [repr] text (no arithmetic is ever done on
    them by this layer), identifiers by the 96-bit number they encode. *)

#[warnings="-register-all"]
Inductive value : Type :=
| VNone
| VBool (b : bool)
| VInt (z : Z)
| VFloat (repr : string)
| VStr (s : string)
| VOid (o : N)
| VTime (t : Z)
| VList (l : list value)
| VDict (kv : list (string * value)).

(** ** Identifiers: [bson.ObjectId]

    An [ObjectId] holds a byte string.  Those the driver generates are
    twelve bytes long and are read here as numbers below [2^96];
    [str(oid)] is the 24-digit lower-case hexadecimal text.  [ObjectId(s)]
    on a string checks [len(s) == 24] and then calls [bytes.fromhex(s)],
    which skips ASCII white space in front of a byte and wants two
    hexadecimal digits (either case) for each byte; the bytes it gives are
    taken as they are, so a 24-character string with white space in it
    makes a shorter identifier.  Everything else raises [InvalidId]. *)

Module ObjectId.

Definition hex_digit (d : N) : ascii :=
  if (d <? 10)%N then ascii_of_N (48 + d) else ascii_of_N (87 + d).

Definition hex_val (c : ascii) : option N :=
  let n := N_of_ascii c in
  if ((48 <=? n) && (n <=? 57))%N then Some (n - 48)%N
  else if ((97 <=? n) && (n <=? 102))%N then Some (n - 87)%N
  else if ((65 <=? n) && (n <=? 70))%N then Some (n - 55)%N
  else None.

Fixpoint render (k : nat) (n : N) : list ascii :=
  match k with
  | O => []
  | S k' => render k' (n / 16)%N ++ [hex_digit (n mod 16)%N]
  end.

Definition to_str (o : N) : string := string_of_list_ascii (render 24 o).

(** ASCII white space: tab, line feed, vertical tab, form feed, carriage
    return, space. *)
Definition is_space (c : ascii) : bool :=
  let n := N_of_ascii c in
  (((9 <=? n) && (n <=? 13)) || (n =? 32))%N.

(** [bytes.fromhex]. *)
Fixpoint fromhex (l : list ascii) : option (list N) :=
  match l with
  | [] => Some []
  | c :: rest =>
    if is_space c then fromhex rest
    else
      match hex_val c, rest with
      | Some hi, c' :: rest' =>
        match hex_val c' with
        | Some lo => option_map (cons (16 * hi + lo)%N) (fromhex rest')
        | None => None
        end
      | _, _ => None
      end
  end.

(** [ObjectId(s)] for a string [s]: the bytes of the identifier, or [None]
    where the constructor raises [InvalidId]. *)
Definition parse (s : string) : option (list N) :=
  if (String.length s =? 24)%nat
  then fromhex (list_ascii_of_string s)
  else None.

(** The [k] bytes of a number, most significant first. *)
Fixpoint bytes_be (k : nat) (n : N) : list N :=
  match k with
  | O => []
  | S k' => bytes_be k' (n / 256)%N ++ [(n mod 256)%N]
  end.

(** The twelve bytes of a driver-generated identifier. *)
Definition binary (o : N) : list N := bytes_be 12 o.

(** The number a twelve-byte identifier stands for; a byte string of
    another length is the identifier of no stored document. *)
Definition as_N (b : list N) : option N :=
  if (length b =? 12)%nat
  then Some (fold_left (fun a x => (256 * a + x)%N) b 0%N)
  else None.

Definition bound : N := (2 ^ 96)%N.

End ObjectId.

(** ** The store's regular expressions

    The store evaluates [{"$regex": p, "$options": o}] with a PCRE engine.
    Part of that engine is modelled here: patterns made of literal
    characters, backslash-escaped metacharacters, the wildcard [.] (any
    character but a line feed) and the postfix quantifiers [*], [+], [?],
    with no option or the option [i] (ASCII case folding), on byte strings.
    [search] answers [None] for what this part leaves out: any other
    pattern or option, a quantifier on a byte that is not ASCII, and a
    wildcard on a subject that is not ASCII (where a character is more
    than a byte). *)

Module Regex.

Inductive atom := Lit (c : ascii) | Any.
Inductive quant := One | Star | Plus | Opt.

Definition is_meta (c : ascii) : bool :=
  existsb (Ascii.eqb c)
    (list_ascii_of_string "\^$.|?*+()[]{}").

Definition is_ascii (c : ascii) : bool := (N_of_ascii c <? 128)%N.

Definition quant_of (c : ascii) : option quant :=
  if Ascii.eqb c "*" then Some Star
  else if Ascii.eqb c "+" then Some Plus
  else if Ascii.eqb c "?" then Some Opt
  else None.

Definition atom_of (c : ascii) : option atom :=
  if Ascii.eqb c "." then Some Any
  else if is_meta c then None
  else Some (Lit c).

(** [compile_from p]: one atom, its optional quantifier, then the rest. *)
Fixpoint compile_from (p : list ascii) : option (list (atom * quant)) :=
  match p with
  | [] => Some []
  | c :: rest =>
    if Ascii.eqb c "\" then
      match rest with
      | e :: rest' =>
        if is_meta e then
          match rest' with
          | qc :: rest'' =>
            match quant_of qc with
            | Some q => option_map (cons (Lit e, q)) (compile_from rest'')
            | None => option_map (cons (Lit e, One)) (compile_from rest')
            end
          | [] => Some [(Lit e, One)]
          end
        else None
      | [] => None
      end
    else
      match atom_of c with
      | Some a =>
        match rest with
        | qc :: rest' =>
          match quant_of qc with
          | Some q =>
            if is_ascii c
            then option_map (cons (a, q)) (compile_from rest')
            else None
          | None => option_map (cons (a, One)) (compile_from rest)
          end
        | [] => Some [(a, One)]
        end
      | None => None
      end
  end.

Definition compile (p : string) : option (list (atom * quant)) :=
  compile_from (list_ascii_of_string p).

Definition lower (c : ascii) : ascii :=
  let n := N_of_ascii c in
  if ((65 <=? n) && (n <=? 90))%N then ascii_of_N (n + 32) else c.

Definition atom_ok (ci : bool) (a : atom) (c : ascii) : bool :=
  match a with
  | Any => negb (Ascii.eqb c "010")
  | Lit x => if ci then Ascii.eqb (lower x) (lower c) else Ascii.eqb x c
  end.

Fixpoint match_here (ci : bool) (ps : list (atom * quant)) (t : list ascii)
  {struct ps} : bool :=
  match ps with
  | [] => true
  | (a, q) :: ps' =>
    let many := fix many (t : list ascii) : bool :=
      match_here ci ps' t ||
      match t with
      | c :: t' => atom_ok ci a c && many t'
      | [] => false
      end in
    match q with
    | One =>
      match t with
      | c :: t' => atom_ok ci a c && match_here ci ps' t'
      | [] => false
      end
    | Opt =>
      match_here ci ps' t ||
      match t with
      | c :: t' => atom_ok ci a c && match_here ci ps' t'
      | [] => false
      end
    | Star => many t
    | Plus =>
      match t with
      | c :: t' => atom_ok ci a c && many t'
      | [] => false
      end
    end
  end.

(** Unanchored search: a match may start at any offset of the subject. *)
Fixpoint search_from (ci : bool) (ps : list (atom * quant)) (t : list ascii) : bool :=
  match_here ci ps t ||
  match t with
  | _ :: t' => search_from ci ps t'
  | [] => false
  end.

Definition options_ci (opts : string) : option bool :=
  if String.eqb opts "" then Some false
  else if String.eqb opts "i" then Some true
  else None.

Definition has_any (ps : list (atom * quant)) : bool :=
  existsb (fun aq => match fst aq with Any => true | Lit _ => false end) ps.

Definition search (p opts subject : string) : option bool :=
  match compile p, options_ci opts with
  | Some ps, Some ci =>
    let t := list_ascii_of_string subject in
    if has_any ps && negb (forallb is_ascii t) then None
    else Some (search_from ci ps t)
  | _, _ => None
  end.

End Regex.

(** ** Outcomes of a call

    A Python call either returns a value or raises.  [HTTPException] is the
    one exception the handlers raise on purpose; any other exception that
    leaves a handler is answered by the framework with status 500. *)

Inductive exn : Type :=
| HTTPException (status : Z) (detail : string)
| KeyError (key : string)
| InvalidId (text : string)
| ValueError (msg : string)
| OverflowError
| OperationFailure
| AttributeError
| NotImplementedError
| ConfigurationError.

Inductive outcome (A : Type) : Type :=
| Returns (a : A)
| Raises (e : exn).
Arguments Returns {A} a.
Arguments Raises {A} e.

Definition status_code {A : Type} (r : outcome A) : Z :=
  match r with
  | Returns _ => 200
  | Raises (HTTPException status _) => status
  | Raises _ => 500
  end.

(** ** The document store

    A collection keeps its documents in insertion order, each under the
    identifier the driver gave it on insertion; reading a document yields the
    stored fields together with [_id].  The identifiers are the driver's
    own: the store carries the sequence of identifiers its driver is going
    to generate, of which nothing is assumed, and how many of them it has
    used.  The store also records every operation it is sent, so that "no
    store round trip" can be stated.

    The fields the handlers filter on ([name], [category], [specialty],
    [user_id], [doctor_id], [_id]) are scalars in every schema, so equality
    conditions are scalar equality. *)

Inductive cond : Type :=
| CStr (s : string)
| COid (o : list N)
| CRegex (pattern options : string).

Inductive op : Type :=
| OpCount (c : string) (f : gmap string cond)
| OpFind (c : string) (f : gmap string cond) (skip limit : Z)
| OpFindOne (c : string) (f : gmap string cond)
| OpInsert (c : string) (docs : list (gmap string value)).

Record Store : Type := mkStore {
  colls : gmap string (list (N * gmap string value));
  driver_ids : nat -> N;
  issued : nat;
  log : list op
}.

Definition coll (s : Store) (c : string) : list (N * gmap string value) :=
  default [] (colls s !! c).

Definition fetch (r : N * gmap string value) : gmap string value :=
  <["_id" := VOid r.1]> r.2.

(** The identifier the driver generates next. *)
Definition next_oid (s : Store) : N := driver_ids s (issued s).

Definition logged (o : op) (s : Store) : Store :=
  {| colls := colls s; driver_ids := driver_ids s; issued := issued s;
     log := log s ++ [o] |}.

(** Integers travel to the store as BSON, which has at most 8-byte ints. *)
Definition int64_ok (z : Z) : bool := ((- 2 ^ 63 <=? z) && (z <? 2 ^ 63))%Z.

(** [find(f).skip(skip).limit(limit)], as the driver sends it: a limit of
    [0] means no limit, a negative limit stands for its absolute value. *)
Definition page (limit skip : Z) (l : list (gmap string value))
  : list (gmap string value) :=
  let rest := drop (Z.to_nat skip) l in
  if (limit =? 0)%Z then rest else take (Z.to_nat (Z.abs limit)) rest.

(** ** Calls against the process-wide handle [db]

    [db] is [None] when the store is not configured, and the driver's
    database handle otherwise. *)

Definition M (A : Type) : Type := option Store -> outcome A * option Store.

Definition ret {A : Type} (a : A) : M A := fun db => (Returns a, db).

Definition raise {A : Type} (e : exn) : M A := fun db => (Raises e, db).

Definition bind {A B : Type} (m : M A) (k : A -> M B) : M B :=
  fun db =>
    match m db with
    | (Returns a, db') => k a db'
    | (Raises e, db') => (Raises e, db')
    end.

Definition lift {A : Type} (r : outcome A) : M A := fun db => (r, db).

Declare Scope py_scope.
Delimit Scope py_scope with py.
Notation "x <- c ;; k" := (bind c (fun x => k))
  (at level 100, c at next level, right associativity) : py_scope.
Notation "c ;;; k" := (bind c (fun _ => k))
  (at level 100, right associativity) : py_scope.
Local Open Scope py_scope.

Fixpoint map_M {A B : Type} (f : A -> M B) (l : list A) : M (list B) :=
  match l with
  | [] => ret []
  | x :: l' => y <- f x ;; ys <- map_M f l' ;; ret (y :: ys)
  end.

(** The truth value of [db], as in [if db] and [if not db]: [None] is
    false; the driver's database handle has no truth value, asking for it
    raises [NotImplementedError]. *)
Definition db_truthy : M bool :=
  fun db =>
    match db with
    | None => (Returns false, db)
    | Some _ => (Raises NotImplementedError, db)
    end.

(** [db is None]. *)
Definition db_is_none : M bool :=
  fun db => (Returns (match db with None => true | Some _ => false end), db).

(** The driver gives the documents of a batch the identifiers it generates,
    one after the other. *)
Fixpoint with_ids (ids : nat -> N) (k : nat) (docs : list (gmap string value))
  : list (N * gmap string value) :=
  match docs with
  | [] => []
  | d :: docs' => (ids k, d) :: with_ids ids (S k) docs'
  end.

Definition insert_many (c : string) (docs : list (gmap string value)) : M (list N) :=
  fun db =>
    match db with
    | None => (Raises AttributeError, db)
    | Some s =>
      let new := with_ids (driver_ids s) (issued s) docs in
      (Returns (map fst new),
       Some {| colls := <[c := coll s c ++ new]> (colls s);
               driver_ids := driver_ids s;
               issued := (issued s + length docs)%nat;
               log := log s ++ [OpInsert c docs] |})
    end.

Definition insert_one (c : string) (d : gmap string value) : M N :=
  fun db =>
    match db with
    | None => (Raises AttributeError, db)
    | Some s =>
      (Returns (next_oid s),
       Some {| colls := <[c := coll s c ++ [(next_oid s, d)]]> (colls s);
               driver_ids := driver_ids s;
               issued := S (issued s);
               log := log s ++ [OpInsert c [d]] |})
    end.

(** ** Payload models ([schemas.py])

    Only the models a handler receives are needed.  A [Literal[...]] field is
    an enumeration; [model_dump()] turns a validated model into a dict. *)

Inductive PrescriptionStatus := Pending | Approved | Rejected.
Inductive ConsultationMode := Video | Chat.
Inductive ConsultationStatus := Scheduled | Completed | ConsultationCancelled.
Inductive PaymentMethod := Cod | Card | Upi.
Inductive OrderStatus := Placed | Packed | Shipped | Delivered | OrderCancelled.

Record Prescription : Type := {
  p_user_id : string;
  p_doctor_id : option string;
  p_notes : option string;
  p_file_url : option string;
  p_status : PrescriptionStatus
}.

Record Consultation : Type := {
  c_user_id : string;
  c_doctor_id : string;
  c_mode : ConsultationMode;
  c_datetime_iso : string;
  c_status : ConsultationStatus
}.

Record OrderItem : Type := {
  i_medicine_id : string;
  i_name : string;
  i_price : string;
  i_quantity : Z
}.

Record Order : Type := {
  o_user_id : string;
  o_items : list OrderItem;
  o_total_amount : string;
  o_address : string;
  o_payment_method : PaymentMethod;
  o_status : OrderStatus;
  o_prescription_id : option string
}.

Definition opt_str (o : option string) : value :=
  match o with Some s => VStr s | None => VNone end.

Definition dump_prescription (p : Prescription) : gmap string value :=
  list_to_map
    [("user_id", VStr (p_user_id p));
     ("doctor_id", opt_str (p_doctor_id p));
     ("notes", opt_str (p_notes p));
     ("file_url", opt_str (p_file_url p));
     ("status", VStr match p_status p with
                     | Pending => "pending"
                     | Approved => "approved"
                     | Rejected => "rejected"
                     end)].

Definition dump_consultation (c : Consultation) : gmap string value :=
  list_to_map
    [("user_id", VStr (c_user_id c));
     ("doctor_id", VStr (c_doctor_id c));
     ("mode", VStr match c_mode c with Video => "video" | Chat => "chat" end);
     ("datetime_iso", VStr (c_datetime_iso c));
     ("status", VStr match c_status c with
                     | Scheduled => "scheduled"
                     | Completed => "completed"
                     | ConsultationCancelled => "cancelled"
                     end)].

Definition dump_item (i : OrderItem) : value :=
  VDict [("medicine_id", VStr (i_medicine_id i));
         ("name", VStr (i_name i));
         ("price", VFloat (i_price i));
         ("quantity", VInt (i_quantity i))].

Definition dump_order (o : Order) : gmap string value :=
  list_to_map
    [("user_id", VStr (o_user_id o));
     ("items", VList (map dump_item (o_items o)));
     ("total_amount", VFloat (o_total_amount o));
     ("address", VStr (o_address o));
     ("payment_method", VStr match o_payment_method o with
                             | Cod => "cod" | Card => "card" | Upi => "upi"
                             end);
     ("status", VStr match o_status o with
                     | Placed => "placed"
                     | Packed => "packed"
                     | Shipped => "shipped"
                     | Delivered => "delivered"
                     | OrderCancelled => "cancelled"
                     end);
     ("prescription_id", opt_str (o_prescription_id o))].

Record IdResponse : Type := { id_value : string }.
Record MessageResponse : Type := { message : string }.
Record Paginated : Type := {
  total : nat;
  items : list (option (gmap string value))
}.

(** ** The handlers of [main.py] *)

Section Handlers.

(** The store's engine where the part modelled in [Regex] says nothing:
    for a pattern and its options, [None] when the store refuses the
    pattern, and otherwise what it finds in each subject. *)
Variable beyond : string -> string -> option (string -> bool).

(** Python's [str] on a value that is neither an identifier nor a string is
    left open: no handler depends on it. *)
Variable str_other : value -> string.

Definition store_search (p opts subject : string) : option bool :=
  match Regex.search p opts subject with
  | Some b => Some b
  | None =>
    match beyond p opts with
    | Some found => Some (found subject)
    | None => None
    end
  end.

(** The store refuses a query whose pattern it cannot compile. *)
Definition cond_ok (c : cond) : bool :=
  match c with
  | CRegex p o => match store_search p o "" with Some _ => true | None => false end
  | _ => true
  end.

Definition cond_holds (c : cond) (v : option value) : bool :=
  match c, v with
  | CStr s, Some (VStr s') => String.eqb s s'
  | COid b, Some (VOid o') =>
    match ObjectId.as_N b with
    | Some o => N.eqb o o'
    | None => false
    end
  | CRegex p o, Some (VStr s) => default false (store_search p o s)
  | _, _ => false
  end.

Definition filter_ok (f : gmap string cond) : bool :=
  bool_decide (map_Forall (fun _ c => cond_ok c = true) f).

Definition matches (f : gmap string cond) (d : gmap string value) : bool :=
  bool_decide (map_Forall (fun k c => cond_holds c (d !! k) = true) f).

Definition matching (f : gmap string cond) (s : Store) (c : string)
  : list (gmap string value) :=
  List.filter (matches f) (map fetch (coll s c)).

Definition count_documents (c : string) (f : gmap string cond) : M nat :=
  fun db =>
    match db with
    | None => (Raises AttributeError, db)
    | Some s =>
      if filter_ok f
      then (Returns (length (matching f s c)), Some (logged (OpCount c f) s))
      else (Raises OperationFailure, Some (logged (OpCount c f) s))
    end.

Definition find (c : string) (f : gmap string cond) (skip limit : Z)
  : M (list (gmap string value)) :=
  fun db =>
    match db with
    | None => (Raises AttributeError, db)
    | Some s =>
      if (skip <? 0)%Z then (Raises (ValueError "skip must be >= 0"), db)
      else if negb (int64_ok skip && int64_ok (Z.abs limit))
      then (Raises OverflowError, db)
      else if filter_ok f
      then (Returns (page limit skip (matching f s c)),
            Some (logged (OpFind c f skip limit) s))
      else (Raises OperationFailure, Some (logged (OpFind c f skip limit) s))
    end.

Definition find_one (c : string) (f : gmap string cond)
  : M (option (gmap string value)) :=
  fun db =>
    match db with
    | None => (Raises AttributeError, db)
    | Some s =>
      if filter_ok f
      then (Returns (head (matching f s c)), Some (logged (OpFindOne c f) s))
      else (Raises OperationFailure, Some (logged (OpFindOne c f) s))
    end.

Definition py_str (v : value) : string :=
  match v with
  | VOid o => ObjectId.to_str o
  | VStr s => s
  | _ => str_other v
  end.

(** [not doc] for [doc] a dict or [None]. *)
Definition falsy_doc (doc : option (gmap string value)) : bool :=
  match doc with
  | None => true
  | Some d => bool_decide (d = ∅)
  end.

Definition to_public (doc : option (gmap string value))
  : outcome (option (gmap string value)) :=
  if falsy_doc doc then Returns doc
  else
    match doc with
    | Some d =>
      match d !! "_id" with
      | Some v => Returns (Some (<["id" := VStr (py_str v)]> (delete "_id" d)))
      | None => Raises (KeyError "_id")
      end
    | None => Returns doc
    end.

(** [if q:] for an optional string parameter. *)
Definition truthy (p : option string) : bool :=
  match p with
  | Some s => negb (String.eqb s "")
  | None => false
  end.

Definition new_ObjectId (id : string) : outcome (list N) :=
  match ObjectId.parse id with
  | Some o => Returns o
  | None => Raises (InvalidId id)
  end.

Definition publish (cursor : list (gmap string value))
  : M (list (option (gmap string value))) :=
  map_M (fun x => lift (to_public (Some x))) cursor.

(** Lines 77-81 of [list_medicines]: the filter it builds. *)
Definition medicines_filter (q category : option string) : gmap string cond :=
  let filt : gmap string cond := ∅ in
  let filt := if truthy q
              then <["name" := CRegex (default "" q) "i"]> filt else filt in
  let filt := if truthy category
              then <["category" := CStr (default "" category)]> filt else filt in
  filt.

Definition list_medicines (q category : option string) (limit skip : Z)
  : M Paginated :=
  let filt := medicines_filter q category in
  up <- db_truthy ;;
  total <- (if up : bool then count_documents "medicine" filt else ret 0%nat) ;;
  up <- db_truthy ;;
  items <- (if up : bool
            then cursor <- find "medicine" filt skip limit ;; publish cursor
            else ret []) ;;
  ret {| total := total; items := items |}.

Definition get_medicine (id : string) : M (option (gmap string value)) :=
  up <- db_truthy ;;
  if negb up then raise (HTTPException 500 "Database not configured")
  else
    oid <- lift (new_ObjectId id) ;;
    doc <- find_one "medicine" {["_id" := COid oid]} ;;
    if falsy_doc doc then raise (HTTPException 404 "Medicine not found")
    else lift (to_public doc).

(** Lines 105-109 of [list_doctors]. *)
Definition doctors_filter (q specialty : option string) : gmap string cond :=
  let filt : gmap string cond := ∅ in
  let filt := if truthy q
              then <["name" := CRegex (default "" q) "i"]> filt else filt in
  let filt := if truthy specialty
              then <["specialty" := CStr (default "" specialty)]> filt else filt in
  filt.

Definition list_doctors (q specialty : option string) (limit skip : Z)
  : M Paginated :=
  let filt := doctors_filter q specialty in
  up <- db_truthy ;;
  total <- (if up : bool then count_documents "doctor" filt else ret 0%nat) ;;
  up <- db_truthy ;;
  items <- (if up : bool
            then cursor <- find "doctor" filt skip limit ;; publish cursor
            else ret []) ;;
  ret {| total := total; items := items |}.

Definition get_doctor (id : string) : M (option (gmap string value)) :=
  up <- db_truthy ;;
  if negb up then raise (HTTPException 500 "Database not configured")
  else
    oid <- lift (new_ObjectId id) ;;
    doc <- find_one "doctor" {["_id" := COid oid]} ;;
    if falsy_doc doc then raise (HTTPException 404 "Doctor not found")
    else lift (to_public doc).

(** Lines 135 and 179: the filter of [list_prescriptions] and [list_orders]. *)
Definition user_filter (user_id : string) : gmap string cond :=
  {["user_id" := CStr user_id]}.

Definition list_prescriptions (user_id : string) (limit skip : Z) : M Paginated :=
  up <- db_truthy ;;
  if negb up then ret {| total := 0; items := [] |}
  else
    let filt := user_filter user_id in
    total <- count_documents "prescription" filt ;;
    cursor <- find "prescription" filt skip limit ;;
    items <- publish cursor ;;
    ret {| total := total; items := items |}.

(** Lines 155-159 of [list_consultations]. *)
Definition consultations_filter (user_id doctor_id : option string)
  : gmap string cond :=
  let filt : gmap string cond := ∅ in
  let filt := if truthy user_id
              then <["user_id" := CStr (default "" user_id)]> filt else filt in
  let filt := if truthy doctor_id
              then <["doctor_id" := CStr (default "" doctor_id)]> filt else filt in
  filt.

Definition list_consultations (user_id doctor_id : option string) (limit skip : Z)
  : M Paginated :=
  up <- db_truthy ;;
  if negb up then ret {| total := 0; items := [] |}
  else
    let filt := consultations_filter user_id doctor_id in
    total <- count_documents "consultation" filt ;;
    cursor <- find "consultation" filt skip limit ;;
    items <- publish cursor ;;
    ret {| total := total; items := items |}.

Definition list_orders (user_id : string) (limit skip : Z) : M Paginated :=
  up <- db_truthy ;;
  if negb up then ret {| total := 0; items := [] |}
  else
    let filt := user_filter user_id in
    total <- count_documents "order" filt ;;
    cursor <- find "order" filt skip limit ;;
    items <- publish cursor ;;
    ret {| total := total; items := items |}.

Definition seed_medicines : list (gmap string value) :=
  [ list_to_map [("name", VStr "Paracetamol"); ("brand", VStr "Acme Pharma");
                 ("category", VStr "Pain Relief"); ("price", VFloat "2.99");
                 ("stock", VInt 120); ("requires_rx", VBool false)];
    list_to_map [("name", VStr "Amoxicillin"); ("brand", VStr "Acme Pharma");
                 ("category", VStr "Antibiotics"); ("price", VFloat "5.49");
                 ("stock", VInt 80); ("requires_rx", VBool true)] ].

Definition seed_doctors : list (gmap string value) :=
  [ list_to_map [("name", VStr "Dr. A. Mehta"); ("specialty", VStr "Cardiologist");
                 ("experience_years", VInt 12); ("rating", VFloat "4.8");
                 ("fee", VFloat "25.0");
                 ("languages", VList [VStr "en"; VStr "hi"])];
    list_to_map [("name", VStr "Dr. S. Rao"); ("specialty", VStr "Dermatologist");
                 ("experience_years", VInt 8); ("rating", VFloat "4.6");
                 ("fee", VFloat "20.0");
                 ("languages", VList [VStr "en"])] ].

Definition seed_basic : M MessageResponse :=
  up <- db_truthy ;;
  if negb up then raise (HTTPException 500 "Database not configured")
  else
    n <- count_documents "medicine" ∅ ;;
    (if (n =? 0)%nat then (insert_many "medicine" seed_medicines ;;; ret tt)
     else ret tt) ;;;
    n <- count_documents "doctor" ∅ ;;
    (if (n =? 0)%nat then (insert_many "doctor" seed_doctors ;;; ret tt)
     else ret tt) ;;;
    ret {| message := "Seeded demo data (if collections were empty)" |}.

(** Modelled from the spec: [database.create_document] is imported by
    [main.py] but its module is not part of the sources.  The spec has it
    insert the payload as a new document, stamped with creation and update
    timestamps, return the new public identifier, and fail with a
    configuration error when the store is not initialised.  [now] is the
    clock reading of the call. *)
Definition create_document (now : Z) (collection_name : string)
  (data : gmap string value) : M string :=
  missing <- db_is_none ;;
  if missing : bool then raise ConfigurationError
  else
    let data := <["created_at" := VTime now]> data in
    let data := <["updated_at" := VTime now]> data in
    inserted_id <- insert_one collection_name data ;;
    ret (ObjectId.to_str inserted_id).

Definition create_prescription (now : Z) (payload : Prescription) : M IdResponse :=
  new_id <- create_document now "prescription" (dump_prescription payload) ;;
  ret {| id_value := new_id |}.

Definition create_consultation (now : Z) (payload : Consultation) : M IdResponse :=
  new_id <- create_document now "consultation" (dump_consultation payload) ;;
  ret {| id_value := new_id |}.

Definition create_order (now : Z) (payload : Order) : M IdResponse :=
  new_id <- create_document now "order" (dump_order payload) ;;
  ret {| id_value := new_id |}.

(** ** The routing table, per entity *)

Inductive entity := Medicine | Doctor | PrescriptionE | ConsultationE | OrderE.

Definition collection_of (e : entity) : string :=
  match e with
  | Medicine => "medicine"
  | Doctor => "doctor"
  | PrescriptionE => "prescription"
  | ConsultationE => "consultation"
  | OrderE => "order"
  end.

Inductive list_call : Type :=
| ListMedicines (q category : option string)
| ListDoctors (q specialty : option string)
| ListPrescriptions (user_id : string)
| ListConsultations (user_id doctor_id : option string)
| ListOrders (user_id : string).

Definition run_list (c : list_call) (limit skip : Z) : M Paginated :=
  match c with
  | ListMedicines q category => list_medicines q category limit skip
  | ListDoctors q specialty => list_doctors q specialty limit skip
  | ListPrescriptions user_id => list_prescriptions user_id limit skip
  | ListConsultations user_id doctor_id =>
      list_consultations user_id doctor_id limit skip
  | ListOrders user_id => list_orders user_id limit skip
  end.

(** [GET /api/<entity>/{id}] is registered for medicines and doctors only. *)
Definition get_by_id (e : entity) : option (string -> M (option (gmap string value))) :=
  match e with
  | Medicine => Some get_medicine
  | Doctor => Some get_doctor
  | _ => None
  end.

Inductive payload : Type :=
| NewPrescription (p : Prescription)
| NewConsultation (c : Consultation)
| NewOrder (o : Order).

Definition payload_entity (p : payload) : entity :=
  match p with
  | NewPrescription _ => PrescriptionE
  | NewConsultation _ => ConsultationE
  | NewOrder _ => OrderE
  end.

Definition model_dump (p : payload) : gmap string value :=
  match p with
  | NewPrescription x => dump_prescription x
  | NewConsultation x => dump_consultation x
  | NewOrder x => dump_order x
  end.

(** [POST /api/<entity>] is registered for the three transactional entities. *)
Definition create (now : Z) (p : payload) : M IdResponse :=
  match p with
  | NewPrescription x => create_prescription now x
  | NewConsultation x => create_consultation now x
  | NewOrder x => create_order now x
  end.

(** ** Vocabulary of the properties *)

(** The filter and the collection of a list call. *)
Definition filter_of (c : list_call) : gmap string cond :=
  match c with
  | ListMedicines q category => medicines_filter q category
  | ListDoctors q specialty => doctors_filter q specialty
  | ListPrescriptions user_id => user_filter user_id
  | ListConsultations user_id doctor_id => consultations_filter user_id doctor_id
  | ListOrders user_id => user_filter user_id
  end.

(** The optional filter parameters of a list call ([Optional[str] = None]
    in the handler's signature). *)
Definition optional_params (c : list_call) : list (option string) :=
  match c with
  | ListMedicines q category => [q; category]
  | ListDoctors q specialty => [q; specialty]
  | ListPrescriptions _ => []
  | ListConsultations user_id doctor_id => [user_id; doctor_id]
  | ListOrders _ => []
  end.

Definition collection_of_call (c : list_call) : string :=
  match c with
  | ListMedicines _ _ => "medicine"
  | ListDoctors _ _ => "doctor"
  | ListPrescriptions _ => "prescription"
  | ListConsultations _ _ => "consultation"
  | ListOrders _ => "order"
  end.

(** Literal, case-insensitive substring: the spec's reading of a free-text
    search. *)
Definition folded (s : string) : list ascii :=
  map Regex.lower (list_ascii_of_string s).

Definition ci_substring (q name : string) : Prop :=
  exists pre post : list ascii, folded name = pre ++ folded q ++ post.

Definition no_meta (q : string) : bool :=
  forallb (fun c => negb (Regex.is_meta c)) (list_ascii_of_string q).


(** The payload as [create_document] stores it. *)
Definition stamped (now : Z) (data : gmap string value) : gmap string value :=
  <["updated_at" := VTime now]> (<["created_at" := VTime now]> data).

(** The store after [insert_one c d]. *)
Definition inserted (c : string) (d : gmap string value) (s : Store) : Store :=
  {| colls := <[c := coll s c ++ [(next_oid s, d)]]> (colls s);
     driver_ids := driver_ids s;
     issued := S (issued s);
     log := log s ++ [OpInsert c [d]] |}.

Definition not_configured : exn := HTTPException 500 "Database not configured".

Definition empty_page : Paginated := {| total := 0; items := [] |}.

(** ** Vocabulary of the further properties *)

(** Two values of [db] hold the same data: the same collections and the
    same identifier supply (the operation record may differ). *)
Definition same_data (db db' : option Store) : Prop :=
  match db, db' with
  | Some s, Some s' => colls s' = colls s /\ next_oid s' = next_oid s
  | None, None => True
  | _, _ => False
  end.

Definition read_only {A : Type} (m : M A) : Prop :=
  forall db, same_data db (snd (m db)).

(** [s'] holds everything [s] holds, in place, possibly followed by more. *)
Definition extends (s s' : Store) : Prop :=
  forall c, exists extra, coll s' c = coll s c ++ extra.

(** The requests the application serves, and the store they leave behind.
    A get-by-id request for an entity without such a route never reaches a
    handler. *)
Inductive request : Type :=
| ReqList (c : list_call) (limit skip : Z)
| ReqGet (e : entity) (id : string)
| ReqSeed
| ReqCreate (now : Z) (p : payload).

Definition serve (r : request) (db : option Store) : option Store :=
  match r with
  | ReqList c limit skip => snd (run_list c limit skip db)
  | ReqGet e id =>
      match get_by_id e with
      | Some g => snd (g id db)
      | None => db
      end
  | ReqSeed => snd (seed_basic db)
  | ReqCreate now p => snd (create now p db)
  end.

Definition serve_all (rs : list request) (db : option Store) : option Store :=
  fold_left (fun db r => serve r db) rs db.

(** Sample data for the examples below. *)
Definition sample_ids (i : nat) : N := N.of_nat (S i).

Definition empty_store : Store :=
  {| colls := ∅; driver_ids := sample_ids; issued := 0; log := [] |}.

Definition stocked_store : Store :=
  {| colls := {["medicine" := with_ids sample_ids 0 seed_medicines]};
     driver_ids := sample_ids; issued := 2; log := [] |}.

Definition str_blank (_ : value) : string := "".

Definition no_beyond (_ _ : string) : option (string -> bool) := None.

Definition rx_of (user_id : string) : Prescription :=
  {| p_user_id := user_id; p_doctor_id := None; p_notes := None;
     p_file_url := None; p_status := Pending |}.

Definition rx_store : Store :=
  inserted "prescription" (stamped 0 (dump_prescription (rx_of "u1")))
    (inserted "prescription" (stamped 0 (dump_prescription (rx_of "")))
       empty_store).

Definition doc_named (name : string) : gmap string value :=
  {["name" := VStr name]}.

Definition raw_doc : gmap string value :=
  <["_id" := VOid 1]> (doc_named "a").

(** * Properties *)

(** ** The identifier normaliser *)

(** C8. On an absent document ([None]) and on the empty mapping,
    [to_public] returns its input unchanged; it raises on neither. *)
Theorem to_public_empty_or_absent :
  to_public None = Returns None /\
  to_public (Some ∅) = Returns (Some ∅) /\
  (forall e, to_public None <> Raises e /\ to_public (Some ∅) <> Raises e).
Proof.
  repeat split; try reflexivity; discriminate.
Qed.

Lemma falsy_doc_lookup (d : gmap string value) (k : string) (v : value) :
  d !! k = Some v -> falsy_doc (Some d) = false.
Proof.
  intros H. unfold falsy_doc. apply bool_decide_eq_false.
  intros ->. rewrite lookup_empty in H. discriminate.
Qed.

Lemma to_public_with_id (d : gmap string value) (v : value) :
  d !! "_id" = Some v ->
  to_public (Some d)
  = Returns (Some (<["id" := VStr (py_str v)]> (delete "_id" d))).
Proof.
  intros H. unfold to_public. rewrite (falsy_doc_lookup _ _ _ H), H. reflexivity.
Qed.

Lemma to_public_without_id (d : gmap string value) :
  falsy_doc (Some d) = false -> d !! "_id" = None ->
  to_public (Some d) = Raises (KeyError "_id").
Proof.
  intros Hf H. unfold to_public. rewrite Hf, H. reflexivity.
Qed.

(** C2, as the code has it.  [to_public] leaves a falsy document (absent or
    empty) alone, and there a second application changes nothing.  A
    document that carries [_id] is normalised once: [_id] is replaced by
    [id], and applying [to_public] to that result raises [KeyError], because
    the result is not empty and has no [_id] left.  A non-empty document
    without [_id] is refused at the first application. *)
Theorem to_public_second_application (doc : option (gmap string value)) :
  (falsy_doc doc = true /\ to_public doc = Returns doc) \/
  (falsy_doc doc = false /\
   ((exists d v,
       doc = Some d /\ d !! "_id" = Some v /\
       to_public doc
       = Returns (Some (<["id" := VStr (py_str v)]> (delete "_id" d))) /\
       to_public (Some (<["id" := VStr (py_str v)]> (delete "_id" d)))
       = Raises (KeyError "_id")) \/
    to_public doc = Raises (KeyError "_id"))).
Proof.
  destruct (falsy_doc doc) eqn:Hf.
  - left. split; [reflexivity|]. unfold to_public. rewrite Hf. reflexivity.
  - right. split; [reflexivity|].
    destruct doc as [d|]; [|discriminate].
    destruct (d !! "_id") as [v|] eqn:Hid.
    + left. exists d, v. repeat split; try assumption.
      * apply to_public_with_id, Hid.
      * apply to_public_without_id.
        -- apply (falsy_doc_lookup _ "id" (VStr (py_str v))), lookup_insert_eq.
        -- rewrite lookup_insert_ne by discriminate. apply lookup_delete_eq.
    + right. apply to_public_without_id; assumption.
Qed.

(** ** What the handlers answer *)

(** C4. With no store configured, every list call answers the empty page
    [{total: 0, items: []}], whatever its parameters, while both get-by-id
    calls and the seed call raise the 500 "Database not configured" error. *)
Theorem unavailable_store (c : list_call) (limit skip : Z) (id : string) :
  run_list c limit skip None = (Returns {| total := 0; items := [] |}, None) /\
  (forall e g, get_by_id e = Some g ->
     g id None = (Raises not_configured, None) /\
     status_code (fst (g id None)) = 500%Z) /\
  seed_basic None = (Raises not_configured, None) /\
  status_code (fst (seed_basic None)) = 500%Z.
Proof.
  split; [destruct c; reflexivity|].
  split; [|split; reflexivity].
  intros e g Hg. destruct e; inversion Hg; subst; split; reflexivity.
Qed.

(** Every list, get-by-id and seed handler starts by asking for the truth
    value of [db]. *)
Lemma list_run (c : list_call) (limit skip : Z) (db : option Store) :
  run_list c limit skip db
  = (match db with
     | None => Returns empty_page
     | Some _ => Raises NotImplementedError
     end, db).
Proof. destruct c, db; reflexivity. Qed.

Lemma get_run (e : entity) (g : string -> M (option (gmap string value)))
  (id : string) (db : option Store) :
  get_by_id e = Some g ->
  g id db
  = (match db with
     | None => Raises not_configured
     | Some _ => Raises NotImplementedError
     end, db).
Proof.
  intros Hg. destruct e; inversion Hg; subst g; destruct db; reflexivity.
Qed.

Lemma seed_run (db : option Store) :
  seed_basic db
  = (match db with
     | None => Raises not_configured
     | Some _ => Raises NotImplementedError
     end, db).
Proof. destruct db; reflexivity. Qed.




(** ** Free-text search *)

Lemma not_meta_neq (c x : ascii) :
  Regex.is_meta c = false -> Regex.is_meta x = true -> Ascii.eqb c x = false.
Proof.
  intros Hc Hx. destruct (Ascii.eqb c x) eqn:E; [|reflexivity].
  apply Ascii.eqb_eq in E. subst. congruence.
Qed.

Lemma compile_literal (l : list ascii) :
  forallb (fun c => negb (Regex.is_meta c)) l = true ->
  Regex.compile_from l = Some (map (fun c => (Regex.Lit c, Regex.One)) l).
Proof.
  induction l as [|c rest IH]; [reflexivity|].
  intros H. simpl in H. apply andb_true_iff in H as [Hc Hrest].
  apply negb_true_iff in Hc.
  specialize (IH Hrest).
  cbn [Regex.compile_from].
  rewrite (not_meta_neq c "\" Hc eq_refl).
  unfold Regex.atom_of.
  rewrite (not_meta_neq c "." Hc eq_refl), Hc.
  destruct rest as [|qc rest']; [reflexivity|].
  simpl in Hrest. apply andb_true_iff in Hrest as [Hq _].
  apply negb_true_iff in Hq.
  unfold Regex.quant_of.
  rewrite (not_meta_neq qc "*" Hq eq_refl), (not_meta_neq qc "+" Hq eq_refl),
    (not_meta_neq qc "?" Hq eq_refl).
  rewrite IH. reflexivity.
Qed.

Lemma literal_has_no_wildcard (l : list ascii) :
  Regex.has_any (map (fun c => (Regex.Lit c, Regex.One)) l) = false.
Proof. induction l as [|c l IH]; [reflexivity|exact IH]. Qed.

Lemma match_here_literal (l t : list ascii) :
  Regex.match_here true (map (fun c => (Regex.Lit c, Regex.One)) l) t = true <->
  exists post, map Regex.lower t = map Regex.lower l ++ post.
Proof.
  revert t. induction l as [|c l IH]; intros t.
  - simpl. split; [intros _; exists (map Regex.lower t); reflexivity|reflexivity].
  - cbn [map Regex.match_here Regex.atom_ok]. destruct t as [|x t].
    + split; [discriminate|]. intros [post H]. discriminate.
    + rewrite andb_true_iff, Ascii.eqb_eq, IH. simpl. split.
      * intros [-> [post ->]]. exists post. reflexivity.
      * intros [post H]. inversion H as [[Hx Ht]].
        split; [congruence|]. exists post. exact Ht.
Qed.

Lemma search_from_literal (l t : list ascii) :
  Regex.search_from true (map (fun c => (Regex.Lit c, Regex.One)) l) t = true <->
  exists pre post, map Regex.lower t = pre ++ map Regex.lower l ++ post.
Proof.
  induction t as [|x t IH].
  - cbn [Regex.search_from]. rewrite orb_false_r, match_here_literal. split.
    + intros [post H]. exists [], post. exact H.
    + intros [pre [post H]]. destruct pre; [exists post; exact H|discriminate].
  - cbn [Regex.search_from]. rewrite orb_true_iff, match_here_literal, IH. split.
    + intros [[post H]|[pre [post H]]].
      * exists [], post. exact H.
      * exists (Regex.lower x :: pre), post. simpl. rewrite H. reflexivity.
    + intros [pre [post H]]. destruct pre as [|p pre].
      * left. exists post. exact H.
      * right. simpl in H. inversion H as [[Hx Ht]]. exists pre, post. exact Ht.
Qed.

Lemma search_literal (q name : string) :
  no_meta q = true ->
  store_search q "i" name = Some true <-> ci_substring q name.
Proof.
  intros Hq. unfold store_search, Regex.search, Regex.compile.
  rewrite (compile_literal _ Hq). cbn [Regex.options_ci String.eqb Ascii.eqb].
  simpl. rewrite literal_has_no_wildcard. cbn [andb].
  unfold ci_substring, folded. rewrite <- search_from_literal.
  split; [intros [= ->]; reflexivity|intros ->; reflexivity].
Qed.

Lemma cond_holds_str (s : string) (v : option value) :
  cond_holds (CStr s) v = true <-> v = Some (VStr s).
Proof.
  destruct v as [[]|]; simpl; try (split; [discriminate|intros [=]]).
  rewrite String.eqb_eq. split; [intros ->; reflexivity|intros [= ->]; reflexivity].
Qed.

Lemma cond_holds_regex (p o : string) (v : option value) :
  cond_holds (CRegex p o) v = true <->
  exists name, v = Some (VStr name) /\ store_search p o name = Some true.
Proof.
  destruct v as [[]|]; simpl;
    try (split; [discriminate|intros [name [[=] _]]]).
  split.
  - intros H. exists s. split; [reflexivity|].
    destruct (store_search p o s) as [[]|]; try discriminate. reflexivity.
  - intros [name [[= <-] ->]]. reflexivity.
Qed.

Lemma matches_iff (f : gmap string cond) (d : gmap string value) :
  matches f d = true <->
  map_Forall (fun k c => cond_holds c (d !! k) = true) f.
Proof. unfold matches. apply bool_decide_eq_true. Qed.

Lemma truthy_some (q : string) : q <> "" -> truthy (Some q) = true.
Proof.
  intros H. simpl. apply negb_true_iff. apply String.eqb_neq. exact H.
Qed.

Lemma two_part_filter (k1 k2 : string) (c1 c2 : cond) (b1 b2 : bool)
  (d : gmap string value) :
  k1 <> k2 ->
  matches
    (let filt : gmap string cond := ∅ in
     let filt := if b1 then <[k1 := c1]> filt else filt in
     let filt := if b2 then <[k2 := c2]> filt else filt in
     filt) d = true <->
  (b1 = true -> cond_holds c1 (d !! k1) = true) /\
  (b2 = true -> cond_holds c2 (d !! k2) = true).
Proof.
  intros Hk. rewrite matches_iff. cbv zeta. destruct b1, b2.
  - rewrite map_Forall_insert
      by (rewrite lookup_insert_ne by congruence; apply lookup_empty).
    rewrite map_Forall_insert by apply lookup_empty.
    split; [intros [H2 [H1 _]]; auto|].
    intros [H1 H2]. repeat split; auto. apply map_Forall_empty.
  - rewrite map_Forall_insert by apply lookup_empty.
    split; [intros [H1 _]; split; [auto|discriminate]|].
    intros [H1 _]. split; [auto|apply map_Forall_empty].
  - rewrite map_Forall_insert by apply lookup_empty.
    split; [intros [H2 _]; split; [discriminate|auto]|].
    intros [_ H2]. split; [auto|apply map_Forall_empty].
  - split; [intros _; split; discriminate|intros _; apply map_Forall_empty].
Qed.

(** The common shape of [medicines_filter] and [doctors_filter] when [q]
    is given. *)
Lemma pattern_filter_matches (key q : string) (other : option string)
  (d : gmap string value) :
  key <> "name" -> q <> "" ->
  matches
    (let filt : gmap string cond := ∅ in
     let filt := if truthy (Some q)
                 then <["name" := CRegex (default "" (Some q)) "i"]> filt
                 else filt in
     let filt := if truthy other
                 then <[key := CStr (default "" other)]> filt else filt in
     filt) d
  = true <->
  (exists name, d !! "name" = Some (VStr name) /\
                store_search q "i" name = Some true) /\
  (truthy other = true -> d !! key = Some (VStr (default "" other))).
Proof.
  intros Hkey Hne. rewrite (two_part_filter "name" key) by congruence.
  rewrite cond_holds_str, cond_holds_regex, (truthy_some q Hne).
  cbn [default from_option id]. split.
  - intros [H1 H2]. split; [apply H1; reflexivity|exact H2].
  - intros [H1 H2]. split; [intros _; exact H1|exact H2].
Qed.

Lemma text_filter_matches (key q : string) (other : option string)
  (d : gmap string value) :
  key <> "name" -> q <> "" -> no_meta q = true ->
  matches
    (let filt : gmap string cond := ∅ in
     let filt := if truthy (Some q)
                 then <["name" := CRegex (default "" (Some q)) "i"]> filt
                 else filt in
     let filt := if truthy other
                 then <[key := CStr (default "" other)]> filt else filt in
     filt) d
  = true <->
  (exists name, d !! "name" = Some (VStr name) /\ ci_substring q name) /\
  (truthy other = true -> d !! key = Some (VStr (default "" other))).
Proof.
  intros Hkey Hne Hq. rewrite (pattern_filter_matches key q other d Hkey Hne).
  split; intros [[name [Hn Hs]] Ho]; (split; [|exact Ho]); exists name;
    (split; [exact Hn|apply (search_literal q name Hq), Hs]).
Qed.

(** C1, as the code has it.  A non-empty [q] is handed to the store as the
    pattern itself, unescaped, with the case-insensitive option, whatever
    characters it holds.  So the filter matches a document exactly when its
    [name] is a string in which the store's engine finds the pattern [q]
    (and the categorical parameter, when given, is equal).  When [q] has no
    regular-expression metacharacter, finding the pattern is finding [q] as
    a literal, case-insensitive substring. *)
Theorem free_text_search_of_plain_text
  (q : string) (other : option string) (d : gmap string value) :
  q <> "" ->
  medicines_filter (Some q) other
  = (if truthy other
     then <["category" := CStr (default "" other)]> {["name" := CRegex q "i"]}
     else {["name" := CRegex q "i"]}) /\
  doctors_filter (Some q) other
  = (if truthy other
     then <["specialty" := CStr (default "" other)]> {["name" := CRegex q "i"]}
     else {["name" := CRegex q "i"]}) /\
  (matches (medicines_filter (Some q) other) d = true <->
   (exists name, d !! "name" = Some (VStr name) /\
                 store_search q "i" name = Some true) /\
   (truthy other = true -> d !! "category" = Some (VStr (default "" other)))) /\
  (matches (doctors_filter (Some q) other) d = true <->
   (exists name, d !! "name" = Some (VStr name) /\
                 store_search q "i" name = Some true) /\
   (truthy other = true -> d !! "specialty" = Some (VStr (default "" other)))) /\
  (no_meta q = true ->
   forall name, store_search q "i" name = Some true <-> ci_substring q name).
Proof.
  intros Hne. split; [|split; [|split; [|split]]].
  - unfold medicines_filter. cbv zeta. rewrite (truthy_some q Hne).
    destruct (truthy other); reflexivity.
  - unfold doctors_filter. cbv zeta. rewrite (truthy_some q Hne).
    destruct (truthy other); reflexivity.
  - apply (pattern_filter_matches "category" q other d); [discriminate|exact Hne].
  - apply (pattern_filter_matches "specialty" q other d); [discriminate|exact Hne].
  - intros Hq name. apply (search_literal q name Hq).
Qed.

(** ** Open filters and the required [user_id] *)

Lemma filter_all {A : Type} (p : A -> bool) (l : list A) :
  (forall x, p x = true) -> List.filter p l = l.
Proof.
  intros H. induction l as [|x l IH]; [reflexivity|].
  simpl. rewrite H, IH. reflexivity.
Qed.

Lemma matches_empty (d : gmap string value) : matches ∅ d = true.
Proof. apply matches_iff, map_Forall_empty. Qed.

Lemma filter_ok_empty : filter_ok ∅ = true.
Proof. apply bool_decide_eq_true, map_Forall_empty. Qed.

Lemma matching_empty (s : Store) (c : string) :
  matching ∅ s c = map fetch (coll s c).
Proof. apply filter_all, matches_empty. Qed.

Lemma truthy_absent (a : option string) :
  a = None \/ a = Some "" -> truthy a = false.
Proof. intros [->| ->]; reflexivity. Qed.

(** C7, as the code has it.  In a call of [list_medicines], [list_doctors]
    or [list_consultations] whose optional filter parameters are all absent
    or the empty string, the filter built constrains nothing: it is the
    empty filter, every document matches it, and the store, asked with it,
    counts and finds the whole collection.  ([list_prescriptions] and
    [list_orders] always constrain, by their required [user_id].) *)
Theorem open_filter (a b : option string) (c : list_call) (s : Store) :
  a = None \/ a = Some "" ->
  b = None \/ b = Some "" ->
  c = ListMedicines a b \/ c = ListDoctors a b \/ c = ListConsultations a b ->
  filter_of c = ∅ /\
  (forall d, matches (filter_of c) d = true) /\
  matching (filter_of c) s (collection_of_call c)
  = map fetch (coll s (collection_of_call c)) /\
  fst (count_documents (collection_of_call c) (filter_of c) (Some s))
  = Returns (length (coll s (collection_of_call c))).
Proof.
  intros Ha Hb Hc.
  assert (Hf : filter_of c = ∅).
  { destruct Hc as [->|[->| ->]]; cbn [filter_of];
      unfold medicines_filter, doctors_filter, consultations_filter;
      rewrite (truthy_absent a Ha), (truthy_absent b Hb); reflexivity. }
  rewrite Hf. split; [reflexivity|]. split; [apply matches_empty|].
  split; [apply matching_empty|].
  unfold count_documents. rewrite filter_ok_empty, matching_empty, length_map.
  reflexivity.
Qed.




(** ** Identifiers round-trip through their text *)

Lemma hex_val_digit (d : N) :
  (d < 16)%N -> ObjectId.hex_val (ObjectId.hex_digit d) = Some d.
Proof.
  intros H. destruct d as [|p]; [reflexivity|].
  do 4 (destruct p as [p|p|]; try reflexivity; try lia).
Qed.

Lemma hex_digit_not_space (d : N) :
  (d < 16)%N -> ObjectId.is_space (ObjectId.hex_digit d) = false.
Proof.
  intros H. destruct d as [|p]; [reflexivity|].
  do 4 (destruct p as [p|p|]; try reflexivity; try lia).
Qed.

Lemma fromhex_render (k : nat) (n : N) (tail : list ascii) :
  ObjectId.fromhex (ObjectId.render (2 * k) n ++ tail)
  = match ObjectId.fromhex tail with
    | Some bs => Some (ObjectId.bytes_be k n ++ bs)
    | None => None
    end.
Proof.
  revert n tail. induction k as [|k IH]; intros n tail.
  - simpl. destruct (ObjectId.fromhex tail); reflexivity.
  - replace (2 * S k)%nat with (S (S (2 * k))) by lia.
    cbn [ObjectId.render ObjectId.bytes_be]. rewrite <- !app_assoc.
    rewrite IH. cbn [app ObjectId.fromhex].
    rewrite hex_digit_not_space by (apply N.mod_lt; discriminate).
    rewrite !hex_val_digit by (apply N.mod_lt; discriminate).
    rewrite N.Div0.div_div.
    destruct (ObjectId.fromhex tail) as [bs|]; cbn [option_map]; [|reflexivity].
    f_equal. rewrite <- app_assoc. cbn [app]. do 2 f_equal.
    change 256%N with (16 * 16)%N. rewrite N.Div0.mod_mul_r. lia.
Qed.

Lemma length_render (k : nat) (n : N) : length (ObjectId.render k n) = k.
Proof.
  revert n. induction k as [|k IH]; intros n; [reflexivity|].
  cbn [ObjectId.render]. rewrite length_app, IH. simpl. lia.
Qed.

Lemma length_bytes_be (k : nat) (n : N) : length (ObjectId.bytes_be k n) = k.
Proof.
  revert n. induction k as [|k IH]; intros n; [reflexivity|].
  cbn [ObjectId.bytes_be]. rewrite length_app, IH. simpl. lia.
Qed.

Lemma fold_bytes_be (k : nat) (n a : N) :
  fold_left (fun a x => (256 * a + x)%N) (ObjectId.bytes_be k n) a
  = (a * 256 ^ N.of_nat k + n mod 256 ^ N.of_nat k)%N.
Proof.
  revert n. induction k as [|k IH]; intros n.
  - cbn [ObjectId.bytes_be fold_left].
    change (N.of_nat 0) with 0%N. rewrite N.pow_0_r, N.mod_1_r. lia.
  - cbn [ObjectId.bytes_be]. rewrite fold_left_app, IH. cbn [fold_left].
    rewrite Nat2N.inj_succ, N.pow_succ_r'.
    rewrite N.Div0.mod_mul_r. lia.
Qed.

Lemma string_length_of_list (l : list ascii) :
  String.length (string_of_list_ascii l) = length l.
Proof. induction l as [|c l IH]; [reflexivity|]. simpl. rewrite IH. reflexivity. Qed.

Lemma parse_to_str (o : N) :
  ObjectId.parse (ObjectId.to_str o) = Some (ObjectId.binary o).
Proof.
  unfold ObjectId.parse, ObjectId.to_str, ObjectId.binary.
  rewrite string_length_of_list, length_render.
  rewrite list_ascii_of_string_of_list_ascii. cbn [Nat.eqb].
  rewrite <- (app_nil_r (ObjectId.render 24 o)).
  change 24%nat with (2 * 12)%nat. rewrite fromhex_render.
  cbn [ObjectId.fromhex]. rewrite app_nil_r. reflexivity.
Qed.

Lemma as_N_binary (o : N) :
  (o < ObjectId.bound)%N -> ObjectId.as_N (ObjectId.binary o) = Some o.
Proof.
  intros H. unfold ObjectId.as_N, ObjectId.binary.
  rewrite length_bytes_be. cbn [Nat.eqb]. rewrite fold_bytes_be. f_equal.
  rewrite N.mul_0_l, N.add_0_l. apply N.mod_small. exact H.
Qed.

(** ** Create, then look the identifier up *)

Lemma fetch_id (r : N * gmap string value) : fetch r !! "_id" = Some (VOid r.1).
Proof. apply lookup_insert_eq. Qed.

Lemma matches_id_filter (b : list N) (r : N * gmap string value) :
  matches {["_id" := COid b]} (fetch r)
  = match ObjectId.as_N b with
    | Some o => N.eqb o r.1
    | None => false
    end.
Proof.
  apply eq_true_iff_eq. rewrite matches_iff, map_Forall_singleton, fetch_id.
  reflexivity.
Qed.

Lemma filter_ok_id (b : list N) : filter_ok {["_id" := COid b]} = true.
Proof. apply bool_decide_eq_true, map_Forall_singleton. reflexivity. Qed.

Lemma no_match_when_fresh (b : list N) (o : N)
  (l : list (N * gmap string value)) :
  ObjectId.as_N b = Some o ->
  Forall (fun r => r.1 <> o) l ->
  List.filter (matches {["_id" := COid b]}) (map fetch l) = [].
Proof.
  intros Hb. induction 1 as [|r l Hr _ IH]; [reflexivity|].
  cbn [map List.filter]. rewrite matches_id_filter, Hb.
  replace (N.eqb o r.1) with false by (symmetry; apply N.eqb_neq; congruence).
  exact IH.
Qed.

Lemma coll_inserted (c : string) (d : gmap string value) (s : Store) :
  coll (inserted c d s) c = coll s c ++ [(next_oid s, d)].
Proof.
  unfold coll at 1, inserted. cbn [colls]. rewrite lookup_insert_eq. reflexivity.
Qed.

Lemma find_inserted (c : string) (d : gmap string value) (s : Store) :
  Forall (fun r => r.1 <> next_oid s) (coll s c) ->
  (next_oid s < ObjectId.bound)%N ->
  fst (find_one c {["_id" := COid (ObjectId.binary (next_oid s))]}
         (Some (inserted c d s)))
  = Returns (Some (fetch (next_oid s, d))).
Proof.
  intros Hfresh Hb. pose proof (as_N_binary _ Hb) as Has.
  unfold find_one. rewrite filter_ok_id. cbn [fst].
  f_equal. unfold matching. rewrite coll_inserted.
  rewrite map_app, List.filter_app, (no_match_when_fresh _ _ _ Has Hfresh).
  cbn [map List.filter app]. rewrite matches_id_filter, Has.
  cbn [fst]. rewrite N.eqb_refl. reflexivity.
Qed.

Lemma to_public_fetch (o : N) (d : gmap string value) :
  d !! "_id" = None ->
  to_public (Some (fetch (o, d)))
  = Returns (Some (<["id" := VStr (ObjectId.to_str o)]> d)).
Proof.
  intros H. rewrite (to_public_with_id _ _ (fetch_id (o, d))).
  unfold fetch. cbn [fst snd]. rewrite (delete_insert_id _ _ _ H). reflexivity.
Qed.

Lemma create_document_run (now : Z) (c : string) (data : gmap string value)
  (s : Store) :
  create_document now c data (Some s)
  = (Returns (ObjectId.to_str (next_oid s)),
     Some (inserted c (stamped now data) s)).
Proof. reflexivity. Qed.

Lemma stamped_no_id (now : Z) (data : gmap string value) :
  data !! "_id" = None -> stamped now data !! "_id" = None.
Proof.
  intros H. unfold stamped.
  rewrite !lookup_insert_ne by discriminate. exact H.
Qed.

Lemma model_dump_no_id (p : payload) : model_dump p !! "_id" = None.
Proof.
  destruct p; cbn [model_dump];
    unfold dump_prescription, dump_consultation, dump_order;
    cbn [list_to_map foldr uncurry];
    rewrite !lookup_insert_ne by discriminate; apply lookup_empty.
Qed.

Lemma create_run (now : Z) (p : payload) (s : Store) :
  create now p (Some s)
  = (Returns {| id_value := ObjectId.to_str (next_oid s) |},
     Some (inserted (collection_of (payload_entity p))
             (stamped now (model_dump p)) s)).
Proof. destruct p; reflexivity. Qed.

(** C6, as the code has it.  A create call (prescriptions, consultations,
    orders) on a configured store returns the text of the identifier under
    which the payload, stamped with [created_at] and [updated_at], now sits in
    the entity's collection: the text parses back to that identifier, a
    lookup by it in that collection finds the document, and its public form
    is the payload plus [id] and the two timestamps.  No get-by-id route is
    registered for these entities. *)
Theorem create_then_lookup (now : Z) (p : payload) (s : Store) :
  Forall (fun r => r.1 <> next_oid s)
         (coll s (collection_of (payload_entity p))) ->
  (next_oid s < ObjectId.bound)%N ->
  exists new_id oid s1 stored,
    create now p (Some s) = (Returns {| id_value := new_id |}, Some s1) /\
    ObjectId.parse new_id = Some oid /\
    fst (find_one (collection_of (payload_entity p))
           {["_id" := COid oid]} (Some s1)) = Returns (Some stored) /\
    to_public (Some stored)
    = Returns (Some (<["id" := VStr new_id]> (stamped now (model_dump p)))) /\
    get_by_id (payload_entity p) = None.
Proof.
  intros Hfresh Hbound.
  exists (ObjectId.to_str (next_oid s)), (ObjectId.binary (next_oid s)).
  eexists. eexists. split; [apply create_run|].
  split; [apply parse_to_str|].
  split; [apply find_inserted; assumption|].
  split.
  - apply to_public_fetch, stamped_no_id, model_dump_no_id.
  - destruct p; reflexivity.
Qed.

(** * Further properties *)

(** ** What [to_public] keeps *)

(** X1.  On a document that carries [_id], [to_public] drops [_id], sets
    [id] to the text of the identifier, and keeps every other field as it
    was; an [id] field the document already had is overwritten. *)
Theorem to_public_keeps_the_other_fields
  (d : gmap string value) (v : value) :
  d !! "_id" = Some v ->
  exists d',
    to_public (Some d) = Returns (Some d') /\
    d' !! "_id" = None /\
    d' !! "id" = Some (VStr (py_str v)) /\
    (forall k, k <> "id" -> k <> "_id" -> d' !! k = d !! k).
Proof.
  intros H. eexists. split; [apply (to_public_with_id d v H)|].
  split; [|split].
  - rewrite lookup_insert_ne by discriminate. apply lookup_delete_eq.
  - apply lookup_insert_eq.
  - intros k H1 H2. rewrite lookup_insert_ne by congruence.
    apply lookup_delete_ne. congruence.
Qed.

(** ** Reads do not write *)

Lemma same_data_refl (db : option Store) : same_data db db.
Proof. destruct db; simpl; auto. Qed.

(** X5.  No list call and no get-by-id call writes: whatever the
    parameters and whatever the answer, the collections and the identifier
    supply of the store are afterwards what they were before (and an
    unconfigured store stays unconfigured). *)
Theorem reads_do_not_write (db : option Store) :
  (forall c limit skip, same_data db (snd (run_list c limit skip db))) /\
  (forall e g id, get_by_id e = Some g -> same_data db (snd (g id db))).
Proof.
  split.
  - intros c limit skip. rewrite list_run. apply same_data_refl.
  - intros e g id Hg. rewrite (get_run e g id db Hg). apply same_data_refl.
Qed.


(** ** How the filter parameters combine *)

(** X7.  [list_consultations] combines its two optional parameters with
    AND: a document matches exactly when it agrees with each parameter that
    is given and not empty. *)
Theorem consultations_filter_is_a_conjunction
  (user_id doctor_id : option string) (d : gmap string value) :
  matches (consultations_filter user_id doctor_id) d = true <->
  (truthy user_id = true -> d !! "user_id" = Some (VStr (default "" user_id))) /\
  (truthy doctor_id = true ->
   d !! "doctor_id" = Some (VStr (default "" doctor_id))).
Proof.
  unfold consultations_filter.
  rewrite (two_part_filter "user_id" "doctor_id") by discriminate.
  rewrite !cond_holds_str. reflexivity.
Qed.

(** X8.  [list_medicines] and [list_doctors] combine the free-text and the
    categorical parameter with AND: a document matches exactly when its
    [name] is a string the pattern [q] is found in (when [q] is given and
    not empty) and its [category], respectively [specialty], equals the
    categorical parameter (when that is given and not empty). *)
Theorem catalogue_filter_is_a_conjunction
  (q other : option string) (d : gmap string value) :
  (matches (medicines_filter q other) d = true <->
   (truthy q = true ->
    exists name, d !! "name" = Some (VStr name) /\
                 store_search (default "" q) "i" name = Some true) /\
   (truthy other = true -> d !! "category" = Some (VStr (default "" other)))) /\
  (matches (doctors_filter q other) d = true <->
   (truthy q = true ->
    exists name, d !! "name" = Some (VStr name) /\
                 store_search (default "" q) "i" name = Some true) /\
   (truthy other = true -> d !! "specialty" = Some (VStr (default "" other)))).
Proof.
  unfold medicines_filter, doctors_filter. split.
  - rewrite (two_part_filter "name" "category") by discriminate.
    rewrite cond_holds_str, cond_holds_regex. reflexivity.
  - rewrite (two_part_filter "name" "specialty") by discriminate.
    rewrite cond_holds_str, cond_holds_regex. reflexivity.
Qed.

(** X9.  The free-text search ignores the case of [q]: two plain queries
    that differ only in the case of their letters select the same
    documents. *)
Theorem free_text_ignores_case
  (q1 q2 : string) (other : option string) (d : gmap string value) :
  q1 <> "" -> q2 <> "" -> no_meta q1 = true -> no_meta q2 = true ->
  folded q1 = folded q2 ->
  matches (medicines_filter (Some q1) other) d
  = matches (medicines_filter (Some q2) other) d /\
  matches (doctors_filter (Some q1) other) d
  = matches (doctors_filter (Some q2) other) d.
Proof.
  intros N1 N2 M1 M2 Hf.
  assert (Hsub : forall name, ci_substring q1 name <-> ci_substring q2 name)
    by (intros name; unfold ci_substring; rewrite Hf; reflexivity).
  unfold medicines_filter, doctors_filter.
  split; apply eq_true_iff_eq.
  - rewrite (text_filter_matches "category" q1 other d) by (discriminate || assumption).
    rewrite (text_filter_matches "category" q2 other d) by (discriminate || assumption).
    split; intros [[name [Hn Hs]] Ho]; (split; [|exact Ho]); exists name;
      (split; [exact Hn|apply Hsub, Hs]).
  - rewrite (text_filter_matches "specialty" q1 other d) by (discriminate || assumption).
    rewrite (text_filter_matches "specialty" q2 other d) by (discriminate || assumption).
    split; intros [[name [Hn Hs]] Ho]; (split; [|exact Ho]); exists name;
      (split; [exact Hn|apply Hsub, Hs]).
Qed.

(** ** What every request preserves *)

Lemma extends_refl (s : Store) : extends s s.
Proof. intros c. exists []. rewrite app_nil_r. reflexivity. Qed.

Lemma extends_trans (a b c : Store) : extends a b -> extends b c -> extends a c.
Proof.
  intros H1 H2 k. destruct (H1 k) as [x Hx]. destruct (H2 k) as [y Hy].
  exists (x ++ y). rewrite Hy, Hx, app_assoc. reflexivity.
Qed.

Lemma inserted_extends (c : string) (d : gmap string value) (s : Store) :
  extends s (inserted c d s).
Proof.
  intros c'. destruct (decide (c = c')) as [<-|Hne].
  - exists [(next_oid s, d)]. apply coll_inserted.
  - exists []. rewrite app_nil_r. unfold coll, inserted. cbn [colls].
    rewrite lookup_insert_ne by exact Hne. reflexivity.
Qed.

Lemma serve_keeps (r : request) (s : Store) :
  exists s', serve r (Some s) = Some s' /\ extends s s'.
Proof.
  destruct r as [c limit skip|e id| |now p]; cbn [serve].
  - rewrite list_run. exists s. split; [reflexivity|apply extends_refl].
  - exists s. split; [|apply extends_refl].
    destruct (get_by_id e) as [g|] eqn:Hg; [|reflexivity].
    rewrite (get_run e g id (Some s) Hg). reflexivity.
  - rewrite seed_run. exists s. split; [reflexivity|apply extends_refl].
  - rewrite create_run. cbn [snd]. eexists. split; [reflexivity|].
    apply inserted_extends.
Qed.

Lemma serve_unconfigured (r : request) : serve r None = None.
Proof.
  destruct r as [c limit skip|e id| |now p]; cbn [serve].
  - destruct c; reflexivity.
  - destruct e; reflexivity.
  - reflexivity.
  - destruct p; reflexivity.
Qed.

(** X12.  The store is append-only under the whole application: after any
    sequence of requests a configured store still holds every document it
    held, unchanged and in the same order, possibly followed by new ones;
    an unconfigured store stays unconfigured. *)
Theorem requests_only_append (rs : list request) (s : Store) :
  (exists s', serve_all rs (Some s) = Some s' /\
              forall c, exists extra, coll s' c = coll s c ++ extra) /\
  serve_all rs None = None.
Proof.
  split.
  - revert s. induction rs as [|r rs IH]; intros s.
    + exists s. split; [reflexivity|apply extends_refl].
    + destruct (serve_keeps r s) as [s1 [H1 E1]].
      destruct (IH s1) as [s2 [H2 E2]].
      exists s2. unfold serve_all in *. cbn [fold_left]. rewrite H1.
      split; [exact H2|exact (extends_trans _ _ _ E1 E2)].
  - induction rs as [|r rs IH]; [reflexivity|].
    unfold serve_all in *. cbn [fold_left]. rewrite serve_unconfigured.
    exact IH.
Qed.

End Handlers.

(** * The claims on concrete inputs *)

(** C1 as stated fails: [q] is not escaped.  The query [.] goes to the
    store as the pattern [.] and matches the name [a], in which [.] does
    not occur. *)
Lemma free_text_is_a_pattern :
  medicines_filter (Some ".") None = {["name" := CRegex "." "i"]} /\
  (forall beyond,
      matches beyond (medicines_filter (Some ".") None) (doc_named "a") = true) /\
  (forall beyond,
      matches beyond (doctors_filter (Some ".") None) (doc_named "a") = true) /\
  ~ ci_substring "." "a".
Proof.
  split; [reflexivity|]. split; [intros beyond; reflexivity|].
  split; [intros beyond; reflexivity|].
  intros [pre [post H]]. unfold folded in H. simpl in H.
  destruct pre as [|x pre]; [discriminate|].
  destruct pre; discriminate.
Qed.

Lemma free_text_search_witness :
  matches no_beyond (medicines_filter (Some "para") None)
    (doc_named "Paracetamol") = true.
Proof.
  destruct (free_text_search_of_plain_text no_beyond "para" None
              (doc_named "Paracetamol") ltac:(discriminate))
    as [_ [_ [H _]]].
  apply H. split; [|discriminate].
  exists "Paracetamol". split; reflexivity.
Defined.

(** C2 as stated fails: on a stored document the second application of
    [to_public] raises, whatever [str] does on other values. *)
Lemma to_public_not_idempotent :
  ~ exists (str_other : value -> string) (r : option (gmap string value)),
      to_public str_other (Some raw_doc) = Returns r /\
      to_public str_other r = Returns r.
Proof.
  intros [f [r [H1 H2]]].
  rewrite (to_public_with_id f raw_doc (VOid 1) eq_refl) in H1.
  injection H1 as <-.
  rewrite to_public_without_id in H2; [discriminate| |].
  - apply (falsy_doc_lookup _ "id" (VStr (py_str f (VOid 1)))), lookup_insert_eq.
  - rewrite lookup_insert_ne by discriminate. apply lookup_delete_eq.
Qed.





(** C6 as stated fails: the entities that can be created have no get-by-id
    route. *)
Lemma created_prescription_cannot_be_fetched :
  exists new_id db1,
    create 0 (NewPrescription (rx_of "u1")) (Some empty_store)
    = (Returns {| id_value := new_id |}, db1) /\
    ~ (exists (beyond : string -> string -> option (string -> bool))
              (str_other : value -> string) g d,
         get_by_id beyond str_other PrescriptionE = Some g /\
         fst (g new_id db1) = Returns (Some d)).
Proof.
  eexists. eexists. split; [reflexivity|].
  intros [b [f [g [d [Hg _]]]]]. discriminate.
Qed.

Lemma create_then_lookup_witness :
  exists new_id,
    fst (create 0 (NewPrescription (rx_of "u1")) (Some empty_store))
    = Returns {| id_value := new_id |} /\
    ObjectId.parse new_id = Some (ObjectId.binary 1).
Proof.
  destruct (create_then_lookup no_beyond str_blank 0
              (NewPrescription (rx_of "u1")) empty_store)
    as [new_id [oid [s1 [stored [Hc [Hp _]]]]]].
  - vm_compute. constructor.
  - reflexivity.
  - exists new_id. rewrite Hc. split; [reflexivity|].
    rewrite create_run in Hc. injection Hc as <- _. reflexivity.
Defined.

(** C7 as stated fails: a call of [list_prescriptions] has no optional
    filter parameter at all, yet its filter shuts documents out. *)
Lemma required_user_id_is_a_constraint :
  Forall (fun p => p = None \/ p = Some "")
         (optional_params (ListPrescriptions "nobody")) /\
  (forall beyond,
      matching beyond (filter_of (ListPrescriptions "nobody")) rx_store
        "prescription" = []) /\
  length (coll rx_store "prescription") = 2%nat.
Proof.
  split; [constructor|]. split; [intros beyond; reflexivity|reflexivity].
Qed.

Lemma open_filter_witness :
  filter_of (ListMedicines None (Some "")) = ∅ /\
  fst (count_documents no_beyond "medicine"
         (filter_of (ListMedicines None (Some ""))) (Some stocked_store))
  = Returns 2%nat.
Proof.
  destruct (open_filter no_beyond None (Some "") (ListMedicines None (Some ""))
              stocked_store (or_introl eq_refl) (or_intror eq_refl)
              (or_introl eq_refl)) as [H1 [_ [_ H4]]].
  split; [exact H1|exact H4].
Defined.



(** * The further properties on concrete inputs *)

Lemma to_public_keeps_the_other_fields_witness :
  exists d',
    to_public str_blank (Some raw_doc) = Returns (Some d') /\
    d' !! "id" = Some (VStr "000000000000000000000001") /\
    d' !! "name" = Some (VStr "a").
Proof.
  destruct (to_public_keeps_the_other_fields str_blank raw_doc (VOid 1) eq_refl)
    as [d' [H1 [_ [H3 H4]]]].
  exists d'. split; [exact H1|]. split; [exact H3|].
  rewrite H4 by discriminate. reflexivity.
Defined.

Lemma free_text_ignores_case_witness :
  matches no_beyond (medicines_filter (Some "para") None)
    (doc_named "Paracetamol")
  = matches no_beyond (medicines_filter (Some "PARA") None)
      (doc_named "Paracetamol").
Proof.
  destruct (free_text_ignores_case no_beyond "para" "PARA" None
              (doc_named "Paracetamol"))
    as [H _]; [discriminate|discriminate|reflexivity|reflexivity|reflexivity|].
  exact H.
Defined.
